(** * A limit order book: embedding of [main.cpp] and its properties

    The C++ program keeps resting orders in two price ladders
    ([std::map<Price, std::list<shared_ptr<Order>>>], one per side) and an
    index by order id ([std::unordered_map<OrderId, OrderEntry>]).  The
    embedding below follows the member functions of [Order] and [Orderbook]
    one by one.

    Conventions of the embedding.
    - A ladder is a [gmap Price OrderPointers]; [begin_] selects the first
      entry in the order of the map's comparator ([std::greater] for bids,
      [std::less] for asks).
    - A [std::list] is a Rocq list, front first.  A [shared_ptr<Order>] is
      represented by the current value of the object it points to; a write
      through the pointer ([Fill]) is written to the level that holds the
      order and to its index entry, the two places that share the object.
    - A list iterator designates a node; the node is named by the id of the
      order it holds, and [erase(iterator)] removes the first node of the
      list that holds an order of that id.  This names the node of the
      source as long as the list the iterator is erased from is the list it
      points into and holds one node of that id.
    - Member functions are state transformers [Orderbook -> outcome A *
      Orderbook]: the outcome is a returned value, a thrown exception, or
      [Undefined] where control reaches the end of a value-returning
      function or [front()] is taken of an empty list.  The book paired
      with [Undefined] is the one left by the statements executed up to
      that point.
    - A C++ reference is read as the value it designated when it was bound.
      The source reads through a reference after the object it refers to
      was destroyed in three places: [order] and [iterator] in
      [CancelOrder] (bound at line 306 into the index entry that line 307
      erases, read at lines 309-321); [existingOrder] in [MatchOrder]
      (bound at line 332, read at line 334 after [CancelOrder] erased the
      entry); [bid] and [ask] in the inner loop of [MatchOrders] (read at
      lines 228, 234 and 244-245 after [pop_front]), together with the
      levels [bids] and [asks] (tested at line 215 after lines 238 and 241
      erased them; an erased level reads as the empty list).  The C++
      standard gives these reads no meaning.  The embedding does not mark
      them [Undefined]: it follows the statements as if the destroyed
      object still held its last value.  What is stated below about the
      outcome or the ladders on such a path is stated of the embedding
      under this reading; the statements about the index ([orders_]) and
      about [Order::Fill] do not depend on it. *)

From stdpp Require Import gmap list numbers.

Local Open Scope Z_scope.

(** ** Enumerations and scalar types *)

Inductive OrderType := GoodTillCancel | FillAndKill.
Inductive Side := Buy | Sell.

#[global] Instance OrderType_eq_dec : EqDecision OrderType.
Proof. solve_decision. Defined.
#[global] Instance Side_eq_dec : EqDecision Side.
Proof. solve_decision. Defined.

(** [Price = std::int32_t], [Quantity = std::uint32_t],
    [OrderId = std::uint64_t]. *)
Abbreviation Price := Z (only parsing).
Abbreviation Quantity := N (only parsing).
Abbreviation OrderId := N (only parsing).

Definition Quantity_modulus : N := (2 ^ 32)%N.

(** ** LevelInfo, OrderbookLevelInfos *)

Record LevelInfo := mkLevelInfo { li_price_ : Price; li_quantity_ : Quantity }.
Abbreviation LevelInfos := (list LevelInfo) (only parsing).
Record OrderbookLevelInfos :=
  mkOrderbookLevelInfos { infos_bids_ : LevelInfos; infos_asks_ : LevelInfos }.

(** ** Order *)

Record Order := mkOrder {
  orderType_ : OrderType;
  orderId_ : OrderId;
  side_ : Side;
  price_ : Price;
  initialQuantity_ : Quantity;
  remainingQuantity_ : Quantity
}.

#[global] Instance Order_eq_dec : EqDecision Order.
Proof. solve_decision. Defined.

(** The constructor sets both quantities to [quantity]. *)
Definition newOrder (orderType : OrderType) (orderId : OrderId) (side : Side)
    (price : Price) (quantity : Quantity) : Order :=
  mkOrder orderType orderId side price quantity quantity.

Abbreviation GetOrderId := orderId_ (only parsing).
Abbreviation GetSide := side_ (only parsing).
Abbreviation GetPrice := price_ (only parsing).
Abbreviation GetOrderType := orderType_ (only parsing).
Abbreviation GetInitialQuantity := initialQuantity_ (only parsing).
Abbreviation GetRemainingQuantity := remainingQuantity_ (only parsing).

Inductive exn := logic_error | out_of_range.

(** [Order::Fill]: throws when asked for more than what remains. *)
Definition Fill (quantity : Quantity) (o : Order) : option Order :=
  if (GetRemainingQuantity o <? quantity)%N then None
  else Some (mkOrder (orderType_ o) (orderId_ o) (side_ o) (price_ o)
                     (initialQuantity_ o) (remainingQuantity_ o - quantity)%N).

Definition IsFilled (o : Order) : bool := (GetRemainingQuantity o =? 0)%N.

(** [Order::GetFilledQuantity]: an unsigned 32-bit difference. *)
Definition GetFilledQuantity (o : Order) : Quantity :=
  Z.to_N ((Z.of_N (GetInitialQuantity o) - Z.of_N (GetRemainingQuantity o))
          mod Z.of_N Quantity_modulus).

Abbreviation OrderPointers := (list Order) (only parsing).

(** ** OrderModify *)

Record OrderModify := mkOrderModify {
  om_orderId_ : OrderId;
  om_price_ : Price;
  om_side_ : Side;
  om_quantity_ : Quantity
}.

Definition ToOrderPointer (m : OrderModify) (type : OrderType) : Order :=
  newOrder type (om_orderId_ m) (om_side_ m) (om_price_ m) (om_quantity_ m).

(** ** TradeInfo, Trade *)

Record TradeInfo := mkTradeInfo {
  ti_orderId_ : OrderId; ti_price_ : Price; ti_quantity_ : Quantity }.
Record Trade := mkTrade { bidTrade_ : TradeInfo; askTrade_ : TradeInfo }.
Abbreviation Trades := (list Trade) (only parsing).

(** ** Orderbook state *)

Record OrderEntry := mkOrderEntry { order_ : Order; location_ : OrderId }.

Record Orderbook := mkOrderbook {
  bids_ : gmap Price OrderPointers;
  asks_ : gmap Price OrderPointers;
  orders_ : gmap OrderId OrderEntry
}.

Definition emptyBook : Orderbook := mkOrderbook ∅ ∅ ∅.

Definition with_bids (f : gmap Price OrderPointers → gmap Price OrderPointers)
    (ob : Orderbook) : Orderbook :=
  mkOrderbook (f (bids_ ob)) (asks_ ob) (orders_ ob).
Definition with_asks (f : gmap Price OrderPointers → gmap Price OrderPointers)
    (ob : Orderbook) : Orderbook :=
  mkOrderbook (bids_ ob) (f (asks_ ob)) (orders_ ob).
Definition with_orders (f : gmap OrderId OrderEntry → gmap OrderId OrderEntry)
    (ob : Orderbook) : Orderbook :=
  mkOrderbook (bids_ ob) (asks_ ob) (f (orders_ ob)).

(** Outcome of a member function. *)
Inductive outcome (A : Type) :=
| Returned (a : A)
| Thrown (e : exn)
| Undefined.
Arguments Returned {A} a.
Arguments Thrown {A} e.
Arguments Undefined {A}.

(** Sequencing of two calls: the second runs only after the first has
    returned a value. *)
Definition andThen {A B} (r : outcome A * Orderbook)
    (k : A → Orderbook → outcome B * Orderbook) : outcome B * Orderbook :=
  match r with
  | (Returned a, ob) => k a ob
  | (Thrown e, ob) => (Thrown e, ob)
  | (Undefined, ob) => (Undefined, ob)
  end.

(** ** std::map primitives on a ladder *)

(** The comparators of the two ladders. *)
Definition greater (a b : Price) : bool := b <? a.
Definition less (a b : Price) : bool := a <? b.

(** [*m.begin()]: the entry whose key comes first under [comp]. *)
Definition begin_ {V} (comp : Price → Price → bool) (m : gmap Price V)
    : option (Price * V) :=
  map_fold (λ k v best,
              match best with
              | None => Some (k, v)
              | Some (k', _) => if comp k k' then Some (k, v) else best
              end) None m.

(** [erase(iterator)] on a list: unlink the node the iterator designates. *)
Fixpoint list_erase (it : OrderId) (l : OrderPointers) : OrderPointers :=
  match l with
  | [] => []
  | o :: l' => if decide (orderId_ o = it) then l' else o :: list_erase it l'
  end.

(** ** Orderbook::CanMatch *)

Definition CanMatch (side : Side) (price : Price) (ob : Orderbook) : bool :=
  match side with
  | Buy =>
      match begin_ less (asks_ ob) with
      | None => false
      | Some (bestAsk, _) => bestAsk <=? price
      end
  | Sell =>
      match begin_ greater (bids_ ob) with
      | None => false
      | Some (bestBid, _) => price <=? bestBid
      end
  end.

(** ** Orderbook::CancelOrder *)

(** [order] and [iterator] are bound at line 306 by reference into the index
    entry, which line 307 erases; the side, the price and the iterator read
    afterwards are taken at the values the entry held. *)
Definition CancelOrder (orderId : OrderId) (ob : Orderbook)
    : outcome unit * Orderbook :=
  match orders_ ob !! orderId with
  | None => (Returned (), ob)
  | Some (mkOrderEntry order iterator) =>
      let ob := with_orders (delete orderId) ob in
      match GetSide order with
      | Sell =>
          let price := GetPrice order in
          match asks_ ob !! price with
          | None => (Thrown out_of_range, ob)
          | Some orders =>
              let orders := list_erase iterator orders in
              let ob := with_asks (<[price := orders]>) ob in
              (Returned (),
               if decide (orders = []) then with_asks (delete price) ob else ob)
          end
      | Buy =>
          let price := GetPrice order in
          match bids_ ob !! price with
          | None => (Thrown out_of_range, ob)
          | Some orders =>
              let orders := list_erase iterator orders in
              let ob := with_bids (<[price := orders]>) ob in
              (Returned (),
               if decide (orders = []) then with_bids (delete price) ob else ob)
          end
      end
  end.

(** ** Orderbook::CheckAndCancelFillAndKillOrders *)

Definition cancelFillAndKillOrder (comp : Price → Price → bool)
    (orderContainer : Orderbook → gmap Price OrderPointers) (ob : Orderbook)
    : outcome unit * Orderbook :=
  match begin_ comp (orderContainer ob) with
  | None => (Returned (), ob)
  | Some (_, orders) =>
      match orders with
      | [] => (Undefined, ob)
      | order :: _ =>
          if decide (GetOrderType order = FillAndKill)
          then CancelOrder (GetOrderId order) ob
          else (Returned (), ob)
      end
  end.

Definition CheckAndCancelFillAndKillOrders (ob : Orderbook)
    : outcome unit * Orderbook :=
  andThen (cancelFillAndKillOrder greater bids_ ob)
          (λ _ ob, cancelFillAndKillOrder less asks_ ob).

(** ** Orderbook::MatchOrders *)

(** A write through [bid] (resp. [ask]), the pointer at the front of the
    level at [price]: the object is the one the level's front node and the
    index entry of its id point to. *)
Definition set_front (o : Order) (l : OrderPointers) : OrderPointers :=
  match l with
  | [] => []
  | _ :: l' => o :: l'
  end.

Definition set_entry_order (o : Order) (e : OrderEntry) : OrderEntry :=
  mkOrderEntry o (location_ e).

Definition write_bid (price : Price) (o : Order) (ob : Orderbook) : Orderbook :=
  with_orders (alter (set_entry_order o) (GetOrderId o))
    (with_bids (alter (set_front o) price) ob).

Definition write_ask (price : Price) (o : Order) (ob : Orderbook) : Orderbook :=
  with_orders (alter (set_entry_order o) (GetOrderId o))
    (with_asks (alter (set_front o) price) ob).

(** [bids.empty()] for the level bound to [bids] at [price]. *)
Definition level_empty (price : Price) (m : gmap Price OrderPointers) : bool :=
  match m !! price with
  | Some (_ :: _) => false
  | _ => true
  end.

(** The body of the inner [while], entered with [bid] and [ask] at the front
    of the two levels.  After [pop_front] (lines 227, 233) the references
    [bid] and [ask] designate a destroyed node; the id read for the index
    removal (lines 228, 234) and the fields read for the trade (lines
    244-245) are taken at the values of the filled order. *)
Definition MatchOrders_body (bidPrice askPrice : Price) (bid ask : Order)
    (trades : Trades) (ob : Orderbook) : outcome Trades * Orderbook :=
  let quantity := N.min (GetRemainingQuantity bid) (GetRemainingQuantity ask) in
  match Fill quantity bid with
  | None => (Thrown logic_error, ob)
  | Some bid =>
      let ob := write_bid bidPrice bid ob in
      match Fill quantity ask with
      | None => (Thrown logic_error, ob)
      | Some ask =>
          let ob := write_ask askPrice ask ob in
          let ob :=
            if IsFilled bid
            then with_orders (delete (GetOrderId bid))
                   (with_bids (alter (drop 1) bidPrice) ob)
            else ob in
          let ob :=
            if IsFilled ask
            then with_orders (delete (GetOrderId ask))
                   (with_asks (alter (drop 1) askPrice) ob)
            else ob in
          let ob :=
            if level_empty bidPrice (bids_ ob)
            then with_bids (delete bidPrice) ob else ob in
          let ob :=
            if level_empty askPrice (asks_ ob)
            then with_asks (delete askPrice) ob else ob in
          (Returned
             (trades ++
              [mkTrade (mkTradeInfo (GetOrderId bid) (GetPrice bid) quantity)
                       (mkTradeInfo (GetOrderId ask) (GetPrice ask) quantity)]),
           ob)
      end
  end.

(** The inner [while (!bids.empty() && !asks.empty())], iterated at most
    [fuel] times; [None] when [fuel] iterations did not reach the exit.  The
    test reads the levels through the references bound at lines 209-210; a
    level erased by line 238 or 241 reads as empty. *)
Fixpoint MatchOrders_levels (fuel : nat) (bidPrice askPrice : Price)
    (trades : Trades) (ob : Orderbook) : option (outcome Trades * Orderbook) :=
  match bids_ ob !! bidPrice, asks_ ob !! askPrice with
  | Some (bid :: _), Some (ask :: _) =>
      match fuel with
      | O => None
      | S fuel =>
          match MatchOrders_body bidPrice askPrice bid ask trades ob with
          | (Returned trades, ob) =>
              MatchOrders_levels fuel bidPrice askPrice trades ob
          | r => Some r
          end
      end
  | _, _ => Some (Returned trades, ob)
  end.

(** Every path through the body of the outer [while (true)] leaves the loop:
    by [break] at the two tests at its top, by [return trades] at its bottom.
    After a [break] control reaches the closing brace of the function, which
    has no [return] statement. *)
Definition MatchOrders (ob : Orderbook) : outcome Trades * Orderbook :=
  let trades : Trades := [] in
  match begin_ greater (bids_ ob), begin_ less (asks_ ob) with
  | Some (bidPrice, bids), Some (askPrice, asks) =>
      if bidPrice <? askPrice then (Undefined, ob)
      else
        match MatchOrders_levels (length bids + length asks)
                bidPrice askPrice trades ob with
        | Some r =>
            andThen r (λ trades ob,
              andThen (CheckAndCancelFillAndKillOrders ob) (λ _ ob,
                (Returned trades, ob)))
        | None => (Undefined, ob)
        end
  | _, _ => (Undefined, ob)
  end.

(** ** Orderbook::AddOrder *)

(** Lines 283-297: the order is appended to a level and recorded in the
    index.  [order.push_back(order)] of the Buy branch is read as
    [orders.push_back(order)], the statement of the other branch.  Both
    branches take the level from [bids_]. *)
Definition AddOrder_insert (order : Order) (ob : Orderbook) : Orderbook :=
  let push (m : gmap Price OrderPointers) :=
    <[GetPrice order := default [] (m !! GetPrice order) ++ [order]]> m in
  let ob :=
    match GetSide order with
    | Buy => with_bids push ob
    | Sell => with_bids push ob
    end in
  let iterator := GetOrderId order in
  with_orders (λ m, match m !! GetOrderId order with
                    | Some _ => m
                    | None => <[GetOrderId order := mkOrderEntry order iterator]> m
                    end) ob.

Definition AddOrder (order : Order) (ob : Orderbook) : outcome Trades * Orderbook :=
  if decide (is_Some (orders_ ob !! GetOrderId order)) then (Returned [], ob)
  else if bool_decide (GetOrderType order = FillAndKill)
          && negb (CanMatch (GetSide order) (GetPrice order) ob)
  then (Returned [], ob)
  else MatchOrders (AddOrder_insert order ob).

(** ** Orderbook::MatchOrder (modify) *)

(** [existingOrder] is bound at line 332 by reference into the index entry;
    the kind read through it at line 334, after [CancelOrder] erased that
    entry, is taken at the value the entry held. *)
Definition MatchOrder (order : OrderModify) (ob : Orderbook)
    : outcome Trades * Orderbook :=
  match orders_ ob !! om_orderId_ order with
  | None => (Returned [], ob)
  | Some (mkOrderEntry existingOrder _) =>
      andThen (CancelOrder (om_orderId_ order) ob) (λ _ ob,
        AddOrder (ToOrderPointer order (GetOrderType existingOrder)) ob)
  end.

(** ** Orderbook::Size *)

Definition Size (ob : Orderbook) : nat := size (orders_ ob).

(** ** Orderbook::GetOrderInfos *)

(** The aggregation lambda: [std::accumulate] with an accumulator of type
    [Quantity], so that every partial sum is reduced to 32 bits. *)
Definition CreateLevelInfos (price : Price) (orders : OrderPointers) : LevelInfo :=
  mkLevelInfo price
    (foldl (λ runningSum order,
              ((runningSum + GetRemainingQuantity order) mod Quantity_modulus)%N)
           0%N orders).

(** The body of the function stops after the definition of
    [CreateLevelInfos], at an unfinished [for]: the two vectors are never
    filled and no value is returned. *)
Definition GetOrderInfos (ob : Orderbook) : outcome OrderbookLevelInfos :=
  let bidInfos : LevelInfos := [] in
  let askInfos : LevelInfos := [] in
  Undefined.

(** * Notions used in the statements *)

(** The orders of the level at [price]; none once the level is erased. *)
Definition level (price : Price) (m : gmap Price OrderPointers) : OrderPointers :=
  default [] (m !! price).

(** The ladder of a side. *)
Definition ladder (side : Side) (ob : Orderbook) : gmap Price OrderPointers :=
  match side with
  | Buy => bids_ ob
  | Sell => asks_ ob
  end.

(** The books that calls of the public member functions produce from the
    empty book, whatever the outcome of each call. *)
Inductive reachable : Orderbook → Prop :=
| reachable_empty : reachable emptyBook
| reachable_AddOrder order ob :
    reachable ob → reachable (AddOrder order ob).2
| reachable_CancelOrder orderId ob :
    reachable ob → reachable (CancelOrder orderId ob).2
| reachable_MatchOrder order ob :
    reachable ob → reachable (MatchOrder order ob).2.

(** The book rests uncrossed: one ladder is empty or the best bid is
    strictly below the best ask. *)
Definition no_resting_cross (ob : Orderbook) : Prop :=
  bids_ ob = ∅ ∨ asks_ ob = ∅ ∨
  ∃ bidPrice bids askPrice asks,
    begin_ greater (bids_ ob) = Some (bidPrice, bids) ∧
    begin_ less (asks_ ob) = Some (askPrice, asks) ∧
    bidPrice < askPrice.

(** The lots that remain in a level. *)
Definition remaining_of (l : OrderPointers) : N :=
  foldr (λ o s, GetRemainingQuantity o + s)%N 0%N l.

(** Every index entry is filed under the id of its order: a lookup by id
    yields an order of that id. *)
Definition index_keyed (ob : Orderbook) : Prop :=
  ∀ orderId e, orders_ ob !! orderId = Some e →
               GetOrderId (order_ e) = orderId.

(** The outcome is not the exception of [Order::Fill]. *)
Definition not_logic_error (C : Type) (r : outcome C) : Prop :=
  r ≠ Thrown logic_error.

(** ** Sample orders and books *)

Definition buy1 : Order := newOrder GoodTillCancel 1 Buy 100 10.
Definition sell1 : Order := newOrder GoodTillCancel 1 Sell 100 5.
Definition sell2 : Order := newOrder GoodTillCancel 2 Sell 101 5.
Definition buy3 : Order := newOrder GoodTillCancel 3 Buy 101 10.
Definition fak_buy : Order := newOrder FillAndKill 7 Buy 99 4.


(** One resting buy order, as left by [AddOrder buy1] on the empty book. *)
Definition book_buy1 : Orderbook :=
  mkOrderbook {[ 100 := [buy1] ]} ∅ {[ 1%N := mkOrderEntry buy1 1%N ]}.

(** Two ask levels, 5 lots at 100 and 5 lots at 101, and no bid. *)
Definition book_two_asks : Orderbook :=
  mkOrderbook ∅ {[ 100 := [sell1]; 101 := [sell2] ]}
    {[ 1%N := mkOrderEntry sell1 1%N; 2%N := mkOrderEntry sell2 2%N ]}.

(** The order [buy3] after 5 of its 10 lots are filled, and the book that
    [AddOrder buy3] leaves from [book_two_asks]. *)
Definition buy3_left : Order := mkOrder GoodTillCancel 3 Buy 101 10 5.

Definition book_after_buy3 : Orderbook :=
  mkOrderbook {[ 101 := [buy3_left] ]} {[ 101 := [sell2] ]}
    {[ 2%N := mkOrderEntry sell2 2%N; 3%N := mkOrderEntry buy3_left 3%N ]}.

(** * Properties *)

(** ** The first entry of a ladder *)

Section Begin.
Context {V : Type}.
Variable comp : Price → Price → bool.

Lemma begin_empty : begin_ comp (∅ : gmap Price V) = None.
Proof. unfold begin_. apply map_fold_empty. Qed.

Lemma begin_None (m : gmap Price V) : begin_ comp m = None ↔ m = ∅.
Proof.
  split; [|intros ->; apply begin_empty].
  unfold begin_.
  apply (map_fold_weak_ind (λ r m, r = None → m = ∅)); [done|].
  intros k v m' r _ _. destruct r as [[k' v']|]; [|done].
  by destruct (comp k k').
Qed.

Lemma begin_Some_lookup (m : gmap Price V) k v :
  begin_ comp m = Some (k, v) → m !! k = Some v.
Proof.
  unfold begin_. revert k v.
  apply (map_fold_weak_ind
           (λ r m, ∀ k v, r = Some (k, v) → m !! k = Some v)); [done|].
  intros i x m' r Hi IH k v Hr.
  assert (Hcase : (k = i ∧ v = x) ∨ r = Some (k, v)).
  { destruct r as [[k' v']|]; [destruct (comp i k')|]; naive_solver. }
  destruct Hcase as [[-> ->]|Hr'].
  - apply lookup_insert_eq.
  - specialize (IH _ _ Hr'). rewrite lookup_insert_ne; [done|congruence].
Qed.

Lemma begin_is_Some (m : gmap Price V) :
  m ≠ ∅ → ∃ k v, begin_ comp m = Some (k, v).
Proof.
  intros Hm. destruct (begin_ comp m) as [[k v]|] eqn:E; [eauto|].
  by apply begin_None in E.
Qed.

(** When [comp] is a strict order, no key of the map comes before the key
    of the first entry. *)
Hypothesis comp_irrefl : ∀ a, comp a a = false.
Hypothesis comp_trans : ∀ a b c, comp a b = true → comp b c = true → comp a c = true.

Lemma begin_first (m : gmap Price V) k v :
  begin_ comp m = Some (k, v) → ∀ k', is_Some (m !! k') → comp k' k = false.
Proof.
  unfold begin_. revert k v.
  cut ((map_fold (λ k v best,
            match best with
            | None => Some (k, v)
            | Some (k', _) => if comp k k' then Some (k, v) else best
            end) None m = None → m = ∅) ∧
       ∀ k v, map_fold (λ k v best,
            match best with
            | None => Some (k, v)
            | Some (k', _) => if comp k k' then Some (k, v) else best
            end) None m = Some (k, v) →
              ∀ k', is_Some (m !! k') → comp k' k = false); [tauto|].
  apply (map_fold_weak_ind
           (λ r m, (r = None → m = ∅) ∧
                   ∀ k v, r = Some (k, v) →
                          ∀ k', is_Some (m !! k') → comp k' k = false)); [done|].
  intros i x m' r Hi [IHe IH]. split.
  { destruct r as [[k0 v0]|]; [by destruct (comp i k0)|done]. }
  intros k v Hr k' Hk'.
  destruct r as [[k0 v0]|].
  - specialize (IH k0 v0 eq_refl).
    destruct (comp i k0) eqn:Hc; simplify_eq.
    + destruct (decide (k' = k)) as [->|Hne]; [apply comp_irrefl|].
      rewrite lookup_insert_ne in Hk' by done.
      specialize (IH _ Hk').
      destruct (comp k' k) eqn:Hc'; [|done].
      by rewrite (comp_trans _ _ _ Hc' Hc) in IH.
    + destruct (decide (k' = i)) as [->|Hne]; [done|].
      rewrite lookup_insert_ne in Hk' by done. by apply IH.
  - simplify_eq. rewrite (IHe eq_refl) in Hk'.
    destruct (decide (k' = k)) as [->|Hne]; [apply comp_irrefl|].
    rewrite lookup_insert_ne, lookup_empty in Hk' by done.
    by destruct Hk'.
Qed.
End Begin.

(** The best bid is the highest price of the bid ladder, the best ask the
    lowest price of the ask ladder. *)
Lemma best_bid_highest {V} (m : gmap Price V) k v :
  begin_ greater m = Some (k, v) → ∀ k', is_Some (m !! k') → k' ≤ k.
Proof.
  intros H k' Hk'.
  pose proof (begin_first (V:=V) greater) as Hf. unfold greater in Hf.
  specialize (Hf ltac:(intros; lia) ltac:(intros; lia) m k v H k' Hk'). lia.
Qed.

Lemma best_ask_lowest {V} (m : gmap Price V) k v :
  begin_ less m = Some (k, v) → ∀ k', is_Some (m !! k') → k ≤ k'.
Proof.
  intros H k' Hk'.
  pose proof (begin_first (V:=V) less) as Hf. unfold less in Hf.
  specialize (Hf ltac:(intros; lia) ltac:(intros; lia) m k v H k' Hk'). lia.
Qed.

(** ** Break paths of [MatchOrders] *)

Lemma MatchOrders_break (ob : Orderbook) :
  bids_ ob = ∅ ∨ asks_ ob = ∅ ∨
  (∃ bidPrice bids askPrice asks,
      begin_ greater (bids_ ob) = Some (bidPrice, bids) ∧
      begin_ less (asks_ ob) = Some (askPrice, asks) ∧ bidPrice < askPrice) →
  MatchOrders ob = (Undefined, ob).
Proof.
  unfold MatchOrders.
  intros [H|[H|(bp & bl & ap & al & Hb & Ha & Hlt)]].
  - rewrite H, begin_empty. done.
  - rewrite H, begin_empty. by destruct (begin_ greater (bids_ ob)) as [[??]|].
  - rewrite Hb, Ha. by rewrite (proj2 (Z.ltb_lt _ _) Hlt).
Qed.

(** ** Rejected submissions *)

Lemma CanMatch_false (side : Side) (price : Price) (ob : Orderbook) :
  (side = Buy ∧
   (asks_ ob = ∅ ∨
    ∃ bestAsk asks, begin_ less (asks_ ob) = Some (bestAsk, asks) ∧ price < bestAsk)) ∨
  (side = Sell ∧
   (bids_ ob = ∅ ∨
    ∃ bestBid bids, begin_ greater (bids_ ob) = Some (bestBid, bids) ∧ bestBid < price)) →
  CanMatch side price ob = false.
Proof.
  unfold CanMatch.
  intros [[-> [H|(a & l & H & Hlt)]]|[-> [H|(b & l & H & Hlt)]]].
  - by rewrite H, begin_empty.
  - rewrite H. lia.
  - by rewrite H, begin_empty.
  - rewrite H. lia.
Qed.

(** C4: a FillAndKill order that the opposite ladder cannot match at its
    limit price (a Buy when the ask ladder is empty or its price is below the
    best ask; a Sell when the bid ladder is empty or its price is above the
    best bid) is rejected: [AddOrder] returns the empty trade list and the
    book, ladders and index alike, is the one it was called on, so the order
    does not rest. *)
Theorem AddOrder_FillAndKill_rejected (order : Order) (ob : Orderbook) :
  GetOrderType order = FillAndKill →
  (GetSide order = Buy ∧
   (asks_ ob = ∅ ∨
    ∃ bestAsk asks, begin_ less (asks_ ob) = Some (bestAsk, asks) ∧
                    GetPrice order < bestAsk)) ∨
  (GetSide order = Sell ∧
   (bids_ ob = ∅ ∨
    ∃ bestBid bids, begin_ greater (bids_ ob) = Some (bestBid, bids) ∧
                    bestBid < GetPrice order)) →
  AddOrder order ob = (Returned [], ob).
Proof.
  intros Htype Hcannot. unfold AddOrder.
  destruct (decide (is_Some (orders_ ob !! orderId_ order))); [done|].
  rewrite (CanMatch_false _ _ _ Hcannot), Htype.
  by rewrite bool_decide_eq_true_2.
Qed.

Lemma AddOrder_FillAndKill_rejected_witness :
  GetOrderType fak_buy = FillAndKill ∧
  ((GetSide fak_buy = Buy ∧
    (asks_ book_two_asks = ∅ ∨
     ∃ bestAsk asks, begin_ less (asks_ book_two_asks) = Some (bestAsk, asks) ∧
                     GetPrice fak_buy < bestAsk)) ∨
   (GetSide fak_buy = Sell ∧
    (bids_ book_two_asks = ∅ ∨
     ∃ bestBid bids, begin_ greater (bids_ book_two_asks) = Some (bestBid, bids) ∧
                     bestBid < GetPrice fak_buy))) ∧
  AddOrder fak_buy book_two_asks = (Returned [], book_two_asks).
Proof.
  assert (H : (GetSide fak_buy = Buy ∧
    (asks_ book_two_asks = ∅ ∨
     ∃ bestAsk asks, begin_ less (asks_ book_two_asks) = Some (bestAsk, asks) ∧
                     GetPrice fak_buy < bestAsk)) ∨
   (GetSide fak_buy = Sell ∧
    (bids_ book_two_asks = ∅ ∨
     ∃ bestBid bids, begin_ greater (bids_ book_two_asks) = Some (bestBid, bids) ∧
                     bestBid < GetPrice fak_buy))).
  { left. split; [reflexivity|]. right. exists 100, [sell1].
    split; [vm_compute; reflexivity | simpl; lia]. }
  split; [reflexivity|]. split; [exact H|].
  exact (AddOrder_FillAndKill_rejected fak_buy book_two_asks eq_refl H).
Defined.

(** ** Duplicate submissions *)

(** C6: submitting an order whose id has an entry in the order index returns
    no trade and leaves the book (ladders and index, hence [Size]) as it
    was. *)
Theorem AddOrder_duplicate (order : Order) (ob : Orderbook) :
  is_Some (orders_ ob !! GetOrderId order) →
  AddOrder order ob = (Returned [], ob).
Proof.
  intros H. unfold AddOrder.
  by destruct (decide (is_Some (orders_ ob !! orderId_ order))).
Qed.

Lemma AddOrder_duplicate_witness :
  is_Some (orders_ book_buy1 !! GetOrderId sell1) ∧
  AddOrder sell1 book_buy1 = (Returned [], book_buy1).
Proof.
  assert (H : is_Some (orders_ book_buy1 !! GetOrderId sell1)).
  { exists (mkOrderEntry buy1 1%N). vm_compute. reflexivity. }
  split; [exact H|]. exact (AddOrder_duplicate sell1 book_buy1 H).
Defined.

(** ** Modify *)

(** A modify of an id that has no entry in the index returns no trade and
    leaves the book as it was (lines 329-330). *)
Lemma MatchOrder_not_resting (order : OrderModify) (ob : Orderbook) :
  orders_ ob !! om_orderId_ order = None →
  MatchOrder order ob = (Returned [], ob).
Proof. intros H. unfold MatchOrder. by rewrite H. Qed.



(** ** Reachable books *)

(** No statement of the program inserts into [asks_]: [AddOrder] takes the
    level from [bids_] on both branches, and the other functions only erase.
    An empty ask ladder therefore stays empty. *)
Lemma CancelOrder_asks_empty orderId ob :
  asks_ ob = ∅ → asks_ (CancelOrder orderId ob).2 = ∅.
Proof.
  intros Ha. unfold CancelOrder.
  destruct (orders_ ob !! orderId) as [[order it]|]; [|done].
  destruct (side_ order); simpl.
  - destruct (bids_ ob !! price_ order); [|done]. simpl.
    by destruct (decide (list_erase it l = [])).
  - by rewrite Ha, lookup_empty.
Qed.

Lemma AddOrder_asks_empty order ob :
  asks_ ob = ∅ → asks_ (AddOrder order ob).2 = ∅.
Proof.
  intros Ha. unfold AddOrder.
  destruct (decide _); [done|].
  destruct (_ && _); [done|].
  rewrite MatchOrders_break.
  - unfold AddOrder_insert. by destruct (side_ order).
  - right; left. unfold AddOrder_insert. by destruct (side_ order).
Qed.

Lemma MatchOrder_asks_empty order ob :
  asks_ ob = ∅ → asks_ (MatchOrder order ob).2 = ∅.
Proof.
  intros Ha. unfold MatchOrder.
  destruct (orders_ ob !! om_orderId_ order) as [[existingOrder it]|]; [|done].
  pose proof (CancelOrder_asks_empty (om_orderId_ order) ob Ha) as Hc.
  destruct (CancelOrder (om_orderId_ order) ob) as [[[]|e|] ob']; simpl in *;
    [|done..].
  by apply AddOrder_asks_empty.
Qed.

Lemma reachable_asks_empty ob : reachable ob → asks_ ob = ∅.
Proof.
  induction 1 as [|order ob _ IH|orderId ob _ IH|order ob _ IH].
  - done.
  - by apply AddOrder_asks_empty.
  - by apply CancelOrder_asks_empty.
  - by apply MatchOrder_asks_empty.
Qed.



(** ** One iteration of the inner matching loop *)

Lemma Fill_le (quantity : Quantity) (o : Order) :
  (quantity ≤ GetRemainingQuantity o)%N →
  Fill quantity o =
  Some (mkOrder (orderType_ o) (orderId_ o) (side_ o) (price_ o)
          (initialQuantity_ o) (remainingQuantity_ o - quantity)%N).
Proof.
  intros H. unfold Fill.
  destruct (N.ltb_spec (remainingQuantity_ o) quantity); [lia|done].
Qed.

Lemma level_empty_spec price m :
  level_empty price m = bool_decide (level price m = []).
Proof.
  unfold level_empty, level. by destruct (m !! price) as [[|??]|].
Qed.

(** The level at [price] after the front order [o'] was written and, when
    filled, popped, and the level erased when it became empty. *)
Lemma level_after_front (price : Price) (o' o : Order) (l : OrderPointers)
    (m : gmap Price OrderPointers) (filled : bool) :
  m !! price = Some (o :: l) →
  let m1 := alter (set_front o') price m in
  let m2 := if filled then alter (drop 1) price m1 else m1 in
  let m3 := if level_empty price m2 then delete price m2 else m2 in
  level price m3 = if filled then l else o' :: l.
Proof.
  intros Hm. cbn zeta. rewrite level_empty_spec. unfold level.
  destruct filled.
  - rewrite !lookup_alter_eq, Hm. simpl. rewrite drop_0.
    case_bool_decide as Hl.
    + by rewrite lookup_delete_eq.
    + by rewrite !lookup_alter_eq, Hm.
  - rewrite !lookup_alter_eq, Hm. simpl.
    by rewrite lookup_alter_eq, Hm.
Qed.

(** What one iteration does: both fills succeed, one trade is appended, a
    filled front order leaves its level and the index. *)
Lemma MatchOrders_body_spec bidPrice askPrice bid bids ask asks trades ob :
  bids_ ob !! bidPrice = Some (bid :: bids) →
  asks_ ob !! askPrice = Some (ask :: asks) →
  ∃ bid' ask' ob',
    Fill (N.min (GetRemainingQuantity bid) (GetRemainingQuantity ask)) bid = Some bid' ∧
    Fill (N.min (GetRemainingQuantity bid) (GetRemainingQuantity ask)) ask = Some ask' ∧
    MatchOrders_body bidPrice askPrice bid ask trades ob =
      (Returned
         (trades ++
          [mkTrade (mkTradeInfo (GetOrderId bid) (GetPrice bid)
                      (N.min (GetRemainingQuantity bid) (GetRemainingQuantity ask)))
                   (mkTradeInfo (GetOrderId ask) (GetPrice ask)
                      (N.min (GetRemainingQuantity bid) (GetRemainingQuantity ask)))]),
       ob') ∧
    level bidPrice (bids_ ob') = (if IsFilled bid' then bids else bid' :: bids) ∧
    level askPrice (asks_ ob') = (if IsFilled ask' then asks else ask' :: asks) ∧
    (IsFilled bid' = true → orders_ ob' !! GetOrderId bid = None) ∧
    (IsFilled ask' = true → orders_ ob' !! GetOrderId ask = None).
Proof.
  intros Hb Ha. unfold MatchOrders_body.
  rewrite (Fill_le _ bid) by lia. rewrite (Fill_le _ ask) by lia.
  eexists _, _, _. split; [reflexivity|]. split; [reflexivity|].
  split; [reflexivity|].
  set (bid' := mkOrder _ _ _ _ _ (remainingQuantity_ bid - _)%N).
  set (ask' := mkOrder _ _ _ _ _ (remainingQuantity_ ask - _)%N).
  change (orderId_ bid') with (orderId_ bid).
  change (orderId_ ask') with (orderId_ ask).
  pose proof (level_after_front bidPrice bid' bid bids (bids_ ob)) as HB.
  pose proof (level_after_front askPrice ask' ask asks (asks_ ob)) as HA.
  destruct (IsFilled bid') eqn:Fb, (IsFilled ask') eqn:Fa;
    [specialize (HB true Hb); specialize (HA true Ha)
    |specialize (HB true Hb); specialize (HA false Ha)
    |specialize (HB false Hb); specialize (HA true Ha)
    |specialize (HB false Hb); specialize (HA false Ha)];
    cbn zeta iota in HB, HA;
    unfold write_ask, write_bid, with_orders, with_bids, with_asks; simpl;
    revert HB HA;
    repeat match goal with
           | |- context [if level_empty ?p ?m then _ else _] =>
               destruct (level_empty p m); simpl
           end;
    intros HB HA;
    (split; [exact HB|]); (split; [exact HA|]);
    (split; intros ?); try done;
    rewrite !lookup_delete_None; eauto.
Qed.

Lemma Fill_min_filled (bid ask bid' ask' : Order) :
  Fill (N.min (GetRemainingQuantity bid) (GetRemainingQuantity ask)) bid = Some bid' →
  Fill (N.min (GetRemainingQuantity bid) (GetRemainingQuantity ask)) ask = Some ask' →
  IsFilled bid' = true ∨ IsFilled ask' = true.
Proof.
  rewrite (Fill_le _ bid), (Fill_le _ ask) by lia.
  intros [= <-] [= <-]. unfold IsFilled; simpl.
  destruct (N.le_ge_cases (remainingQuantity_ bid) (remainingQuantity_ ask)).
  - left. apply N.eqb_eq. lia.
  - right. apply N.eqb_eq. lia.
Qed.


(** ** The fuel of the inner loop *)

(** The inner loop of the embedding never runs out of fuel: every iteration
    takes an order from one of the two levels, so the number of orders in
    the two levels bounds the number of iterations, and the case [None] of
    [MatchOrders] does not arise.  This is a fact about [MatchOrders_levels]
    as defined above, with a popped order read at its last value and an
    erased level read as empty. *)
Lemma MatchOrders_levels_terminates (fuel : nat) bidPrice askPrice trades ob :
  (length (level bidPrice (bids_ ob)) + length (level askPrice (asks_ ob))
   ≤ fuel)%nat →
  ∃ trades' ob',
    MatchOrders_levels fuel bidPrice askPrice trades ob
      = Some (Returned trades', ob') ∧
    (level bidPrice (bids_ ob') = [] ∨ level askPrice (asks_ ob') = []).
Proof.
  revert trades ob.
  induction fuel as [|fuel IH]; intros trades ob Hfuel.
  - exists trades, ob. unfold level in *. simpl.
    destruct (bids_ ob !! bidPrice) as [[|bid bids]|];
      destruct (asks_ ob !! askPrice) as [[|ask asks]|];
      simpl in *; try lia; auto.
  - simpl.
    destruct (bids_ ob !! bidPrice) as [[|bid bids]|] eqn:Hb;
      [exists trades, ob; unfold level; rewrite Hb; auto
      | | exists trades, ob; unfold level; rewrite Hb; auto].
    destruct (asks_ ob !! askPrice) as [[|ask asks]|] eqn:Ha;
      [exists trades, ob; unfold level; rewrite Ha; auto
      | | exists trades, ob; unfold level; rewrite Ha; auto].
    destruct (MatchOrders_body_spec bidPrice askPrice bid bids ask asks trades ob
                Hb Ha)
      as (bid' & ask' & ob' & Fb & Fa & -> & Lb & La & _ & _).
    apply IH. rewrite Lb, La.
    unfold level in Hfuel. rewrite Hb, Ha in Hfuel. simpl in Hfuel.
    destruct (Fill_min_filled _ _ _ _ Fb Fa) as [-> | ->];
      [destruct (IsFilled ask') | destruct (IsFilled bid')]; simpl; lia.
Qed.

(** The fuel [MatchOrders] passes to [MatchOrders_levels] is enough. *)
Lemma MatchOrders_fuel_enough ob bidPrice bids askPrice asks :
  begin_ greater (bids_ ob) = Some (bidPrice, bids) →
  begin_ less (asks_ ob) = Some (askPrice, asks) →
  ∃ trades' ob',
    MatchOrders_levels (length bids + length asks) bidPrice askPrice [] ob
      = Some (Returned trades', ob') ∧
    (level bidPrice (bids_ ob') = [] ∨ level askPrice (asks_ ob') = []).
Proof.
  intros Hb%begin_Some_lookup Ha%begin_Some_lookup.
  apply MatchOrders_levels_terminates. unfold level. by rewrite Hb, Ha.
Qed.

(** ** Submission: where the order is put *)

Lemma AddOrder_insert_bids order ob :
  bids_ (AddOrder_insert order ob) =
  <[GetPrice order := level (GetPrice order) (bids_ ob) ++ [order]]> (bids_ ob).
Proof. unfold AddOrder_insert. by destruct (side_ order). Qed.

Lemma AddOrder_insert_asks order ob :
  asks_ (AddOrder_insert order ob) = asks_ ob.
Proof. unfold AddOrder_insert. by destruct (side_ order). Qed.

Lemma AddOrder_insert_orders order ob :
  orders_ ob !! GetOrderId order = None →
  orders_ (AddOrder_insert order ob) =
  <[GetOrderId order := mkOrderEntry order (GetOrderId order)]> (orders_ ob).
Proof.
  intros H. unfold AddOrder_insert. destruct (side_ order); simpl; by rewrite H.
Qed.

(** A Buy order goes to the back of the level of its price in the bid ladder
    (a new level when there was none), and is recorded in the index. *)
Lemma AddOrder_insert_Buy order ob :
  GetSide order = Buy →
  orders_ ob !! GetOrderId order = None →
  level (GetPrice order) (bids_ (AddOrder_insert order ob))
    = level (GetPrice order) (bids_ ob) ++ [order] ∧
  asks_ (AddOrder_insert order ob) = asks_ ob ∧
  orders_ (AddOrder_insert order ob) !! GetOrderId order
    = Some (mkOrderEntry order (GetOrderId order)).
Proof.
  intros _ Hnew.
  rewrite AddOrder_insert_bids, AddOrder_insert_asks, AddOrder_insert_orders by done.
  unfold level at 1. by rewrite !lookup_insert_eq.
Qed.

(** C2, at the submission of a Sell order to the empty book: the order is
    appended to the level of its price in the bid ladder, and the ask ladder
    stays empty. *)
Theorem AddOrder_Sell_rests_in_bids :
  AddOrder sell1 emptyBook =
  (Undefined,
   mkOrderbook {[ 100 := [sell1] ]} ∅ {[ 1%N := mkOrderEntry sell1 1%N ]}).
Proof. vm_compute. reflexivity. Qed.

(** ** Matching across levels *)

(** C1, at the submission of a Buy of 10 lots at 101 to a book with 5 lots
    offered at 100 and 5 at 101: one trade of 5 lots is returned, and the
    book is left with 5 lots bid at 101 against 5 lots offered at 101. *)
Theorem AddOrder_stops_after_first_level :
  AddOrder buy3 book_two_asks =
  (Returned [mkTrade (mkTradeInfo 3 101 5) (mkTradeInfo 1 100 5)],
   book_after_buy3) ∧
  begin_ greater (bids_ book_after_buy3) = Some (101, [buy3_left]) ∧
  begin_ less (asks_ book_after_buy3) = Some (101, [sell2]) ∧
  ¬ no_resting_cross book_after_buy3.
Proof.
  assert (Hb : begin_ greater (bids_ book_after_buy3) = Some (101, [buy3_left]))
    by (vm_compute; reflexivity).
  assert (Ha : begin_ less (asks_ book_after_buy3) = Some (101, [sell2]))
    by (vm_compute; reflexivity).
  split; [vm_compute; reflexivity|]. split; [done|]. split; [done|].
  intros [H|[H|(bp & bl & ap & al & Hb' & Ha' & Hlt)]].
  - by rewrite H, begin_empty in Hb.
  - by rewrite H, begin_empty in Ha.
  - rewrite Hb in Hb'. rewrite Ha in Ha'. simplify_eq. lia.
Qed.

(** ** The result on the break paths *)

(** C10, on the empty book and at the first submission: the matching pass
    leaves its loop by [break] and ends without a returned trade list. *)
Theorem MatchOrders_break_without_result :
  MatchOrders emptyBook = (Undefined, emptyBook) ∧
  AddOrder buy1 emptyBook = (Undefined, book_buy1).
Proof. split; vm_compute; reflexivity. Qed.

(** ** Snapshot *)

Lemma accumulate_mod (a : Quantity) (orders : OrderPointers) :
  foldl (λ runningSum order,
           ((runningSum + GetRemainingQuantity order) mod Quantity_modulus)%N)
        (a mod Quantity_modulus)%N orders =
  ((a + foldr (λ order s, GetRemainingQuantity order + s) 0 orders)
   mod Quantity_modulus)%N.
Proof.
  revert a. induction orders as [|o l IH]; intros a; simpl.
  - by rewrite N.add_0_r.
  - rewrite N.Div0.add_mod_idemp_l, IH. f_equal. lia.
Qed.

(** The quantity [CreateLevelInfos] computes for a level is the sum of the
    remaining quantities of its orders, reduced to 32 bits. *)
Lemma CreateLevelInfos_sum (price : Price) (orders : OrderPointers) :
  CreateLevelInfos price orders =
  mkLevelInfo price
    ((foldr (λ order s, GetRemainingQuantity order + s) 0 orders)
     mod Quantity_modulus)%N.
Proof.
  unfold CreateLevelInfos. f_equal.
  exact (accumulate_mod 0 orders).
Qed.

(** C8, on the book with one resting buy order: no snapshot is returned. *)
Theorem GetOrderInfos_without_result :
  GetOrderInfos book_buy1 = Undefined.
Proof. reflexivity. Qed.

(** ** Cancel *)

Lemma CancelOrder_not_resting orderId ob :
  orders_ ob !! orderId = None → CancelOrder orderId ob = (Returned (), ob).
Proof. intros H. unfold CancelOrder. by rewrite H. Qed.

(** Whatever its outcome, [CancelOrder] leaves the index without the id. *)
Lemma CancelOrder_orders orderId ob :
  orders_ (CancelOrder orderId ob).2 = delete orderId (orders_ ob).
Proof.
  unfold CancelOrder.
  destruct (orders_ ob !! orderId) as [[order it]|] eqn:E.
  - destruct (side_ order); simpl.
    + destruct (bids_ ob !! price_ order); [|done]. simpl.
      by destruct (decide (list_erase it l = [])).
    + destruct (asks_ ob !! price_ order); [|done]. simpl.
      by destruct (decide (list_erase it l = [])).
  - simpl. by rewrite delete_id.
Qed.

Lemma CancelOrder_twice orderId ob :
  CancelOrder orderId (CancelOrder orderId ob).2
  = (Returned (), (CancelOrder orderId ob).2).
Proof.
  apply CancelOrder_not_resting.
  rewrite CancelOrder_orders. apply lookup_delete_eq.
Qed.

Lemma CancelOrder_Size orderId ob :
  is_Some (orders_ ob !! orderId) →
  Size ob = S (Size (CancelOrder orderId ob).2).
Proof.
  intros [e He]. unfold Size. rewrite CancelOrder_orders.
  rewrite <- (insert_delete_id (orders_ ob) orderId e He) at 1.
  rewrite map_size_insert_None; [done|apply lookup_delete_eq].
Qed.

(** On a book where the indexed order sits in the ladder of its own side, at
    the level of its price, [CancelOrder] returns, unlinks the order from that
    level, erases the level when it has become empty, and leaves the other
    levels and the other ladder alone. *)
Lemma CancelOrder_placed orderId order it orders ob :
  orders_ ob !! orderId = Some (mkOrderEntry order it) →
  ladder (GetSide order) ob !! GetPrice order = Some orders →
  ∃ ob',
    CancelOrder orderId ob = (Returned (), ob') ∧
    orders_ ob' = delete orderId (orders_ ob) ∧
    ladder (GetSide order) ob' !! GetPrice order
      = (if decide (list_erase it orders = []) then None
         else Some (list_erase it orders)) ∧
    (∀ price, price ≠ GetPrice order →
              ladder (GetSide order) ob' !! price
              = ladder (GetSide order) ob !! price) ∧
    (∀ side, side ≠ GetSide order → ladder side ob' = ladder side ob).
Proof.
  intros He Hl. unfold CancelOrder. rewrite He.
  destruct (side_ order) eqn:Hs; simpl in *; rewrite Hl; simpl;
    eexists; (split; [reflexivity|]);
    destruct (decide (list_erase it orders = [])); simpl;
    (split; [done|]); (split; [by simplify_map_eq|]);
    (split; [intros; by simplify_map_eq|]);
    intros []; done.
Qed.

(** C5, at the cancel of the Sell order that [AddOrder] has just accepted on
    the empty book: the order has its index entry, yet the cancel throws
    [std::out_of_range] after erasing that entry, and the order stays in the
    level where [AddOrder] put it. *)
Theorem CancelOrder_resting_Sell_throws :
  orders_ (AddOrder sell1 emptyBook).2 !! 1%N = Some (mkOrderEntry sell1 1%N) ∧
  CancelOrder 1 (AddOrder sell1 emptyBook).2
  = (Thrown out_of_range, mkOrderbook {[ 100 := [sell1] ]} ∅ ∅).
Proof. split; vm_compute; reflexivity. Qed.

(** * Further properties of the member functions *)

(** ** Order::Fill, Order::GetFilledQuantity, Order::IsFilled *)

(** X1: a fill of an order whose remaining quantity does not exceed its
    initial quantity keeps it so, moves exactly [quantity] lots from the
    remaining to the filled quantity, leaves the other fields alone, and
    makes the order filled exactly when [quantity] was all that remained. *)
Theorem Fill_accounting (quantity : Quantity) (o o' : Order) :
  (GetRemainingQuantity o ≤ GetInitialQuantity o)%N →
  (GetInitialQuantity o < Quantity_modulus)%N →
  Fill quantity o = Some o' →
  (GetRemainingQuantity o' ≤ GetInitialQuantity o')%N ∧
  (GetRemainingQuantity o' + quantity = GetRemainingQuantity o)%N ∧
  (GetFilledQuantity o' = GetFilledQuantity o + quantity)%N ∧
  (IsFilled o' = true ↔ quantity = GetRemainingQuantity o) ∧
  GetOrderType o' = GetOrderType o ∧ GetOrderId o' = GetOrderId o ∧
  GetSide o' = GetSide o ∧ GetPrice o' = GetPrice o ∧
  GetInitialQuantity o' = GetInitialQuantity o.
Proof.
  unfold Fill, GetFilledQuantity, IsFilled, Quantity_modulus.
  intros Hle Hlt.
  destruct (N.ltb_spec (remainingQuantity_ o) quantity) as [|Hq]; [done|].
  intros [= <-]. simpl.
  repeat split; try lia.
  - rewrite !Z.mod_small by lia. lia.
  - intros H%N.eqb_eq. lia.
  - intros ->. apply N.eqb_eq. lia.
Qed.

Lemma Fill_accounting_witness :
  (GetRemainingQuantity buy3 ≤ GetInitialQuantity buy3)%N ∧
  (GetInitialQuantity buy3 < Quantity_modulus)%N ∧
  Fill 5 buy3 = Some buy3_left ∧
  (GetRemainingQuantity buy3_left ≤ GetInitialQuantity buy3_left)%N ∧
  (GetRemainingQuantity buy3_left + 5 = GetRemainingQuantity buy3)%N ∧
  (GetFilledQuantity buy3_left = GetFilledQuantity buy3 + 5)%N ∧
  (IsFilled buy3_left = true ↔ 5%N = GetRemainingQuantity buy3) ∧
  GetOrderType buy3_left = GetOrderType buy3 ∧
  GetOrderId buy3_left = GetOrderId buy3 ∧
  GetSide buy3_left = GetSide buy3 ∧ GetPrice buy3_left = GetPrice buy3 ∧
  GetInitialQuantity buy3_left = GetInitialQuantity buy3.
Proof.
  assert (H1 : (GetRemainingQuantity buy3 ≤ GetInitialQuantity buy3)%N)
    by (simpl; lia).
  assert (H2 : (GetInitialQuantity buy3 < Quantity_modulus)%N)
    by (vm_compute; reflexivity).
  assert (H3 : Fill 5 buy3 = Some buy3_left) by reflexivity.
  split; [exact H1|]. split; [exact H2|]. split; [exact H3|].
  exact (Fill_accounting 5 buy3 buy3_left H1 H2 H3).
Defined.

(** X2: two fills in a row are one fill of the sum, for quantities whose
    sum fits the 32 bits of [Quantity]: after a successful fill of [q1], a
    fill of [q2] throws exactly when a single fill of [q1 + q2] would have,
    and otherwise leaves the same order.  (Without the bound the sum passed
    to [Fill] wraps: after a fill of 5, a fill of 4294967295 throws, while
    5 + 4294967295 is 4 as a [Quantity].) *)
Theorem Fill_Fill (q1 q2 : Quantity) (o o1 : Order) :
  (q1 + q2 < Quantity_modulus)%N →
  Fill q1 o = Some o1 → Fill q2 o1 = Fill (q1 + q2) o.
Proof.
  intros _. unfold Fill.
  destruct (N.ltb_spec (remainingQuantity_ o) q1) as [|H1]; [done|].
  intros [= <-]. simpl.
  destruct (N.ltb_spec (remainingQuantity_ o - q1) q2),
           (N.ltb_spec (remainingQuantity_ o) (q1 + q2)); try lia; [done|].
  do 2 f_equal. lia.
Qed.

Lemma Fill_Fill_witness :
  (5 + 2 < Quantity_modulus)%N ∧
  Fill 5 buy3 = Some buy3_left ∧ Fill 2 buy3_left = Fill (5 + 2) buy3.
Proof.
  assert (Hq : (5 + 2 < Quantity_modulus)%N) by (vm_compute; reflexivity).
  assert (H : Fill 5 buy3 = Some buy3_left) by reflexivity.
  split; [exact Hq|]. split; [exact H|].
  exact (Fill_Fill 5 2 buy3 buy3_left Hq H).
Defined.

(** ** Orderbook::CanMatch *)

(** X3: a Buy at [price] can match exactly when some ask level is priced at
    or below [price]; a Sell at [price] exactly when some bid level is priced
    at or above [price]. *)
Theorem CanMatch_iff (side : Side) (price : Price) (ob : Orderbook) :
  CanMatch side price ob = true ↔
  ∃ p l, ladder (match side with Buy => Sell | Sell => Buy end) ob !! p = Some l ∧
         match side with Buy => p ≤ price | Sell => price ≤ p end.
Proof.
  unfold CanMatch. destruct side; simpl; split.
  - destruct (begin_ less (asks_ ob)) as [[a l]|] eqn:E; [|done].
    intros H. exists a, l. split; [by apply begin_Some_lookup in E|lia].
  - intros (p & l & Hp & Hle).
    destruct (begin_ less (asks_ ob)) as [[a la]|] eqn:E.
    + pose proof (best_ask_lowest _ _ _ E p (mk_is_Some _ _ Hp)). lia.
    + apply begin_None in E. by rewrite E, lookup_empty in Hp.
  - destruct (begin_ greater (bids_ ob)) as [[b l]|] eqn:E; [|done].
    intros H. exists b, l. split; [by apply begin_Some_lookup in E|lia].
  - intros (p & l & Hp & Hle).
    destruct (begin_ greater (bids_ ob)) as [[b lb]|] eqn:E.
    + pose proof (best_bid_highest _ _ _ E p (mk_is_Some _ _ Hp)). lia.
    + apply begin_None in E. by rewrite E, lookup_empty in Hp.
Qed.

(** ** Orderbook::CancelOrder *)

(** X4: whatever its outcome, [CancelOrder] takes exactly the entry of
    [orderId] out of the index: the other entries are untouched, and [Size]
    drops by one when the id was indexed and stays as it was otherwise. *)
Theorem CancelOrder_index_effect (orderId : OrderId) (ob : Orderbook) :
  orders_ (CancelOrder orderId ob).2 !! orderId = None ∧
  (∀ other, other ≠ orderId →
            orders_ (CancelOrder orderId ob).2 !! other = orders_ ob !! other) ∧
  Size ob = (if decide (is_Some (orders_ ob !! orderId))
             then S (Size (CancelOrder orderId ob).2)
             else Size (CancelOrder orderId ob).2).
Proof.
  split; [|split].
  - rewrite CancelOrder_orders. apply lookup_delete_eq.
  - intros other Hne. rewrite CancelOrder_orders. by apply lookup_delete_ne.
  - destruct (decide (is_Some (orders_ ob !! orderId))) as [H|H].
    + by apply CancelOrder_Size.
    + rewrite CancelOrder_not_resting; [done|].
      by apply eq_None_not_Some.
Qed.

(** X5: a cancel repeated on the book the first cancel left returns without
    a change, also when the first cancel threw; so does a cancel of an id
    that has no index entry. *)
Theorem CancelOrder_idempotent (orderId : OrderId) (ob : Orderbook) :
  CancelOrder orderId (CancelOrder orderId ob).2
    = (Returned (), (CancelOrder orderId ob).2) ∧
  (orders_ ob !! orderId = None → CancelOrder orderId ob = (Returned (), ob)).
Proof.
  split; [|apply CancelOrder_not_resting].
  apply CancelOrder_not_resting.
  rewrite CancelOrder_orders. apply lookup_delete_eq.
Qed.

(** ** The inner matching loop: what it touches *)

(** The ladder after the front order of the level at [price] was written
    and, when filled, popped, and the level erased when it became empty. *)
Lemma ladder_after_front (price : Price) (o' o : Order) (l : OrderPointers)
    (m : gmap Price OrderPointers) (filled : bool) :
  m !! price = Some (o :: l) →
  let m1 := alter (set_front o') price m in
  let m2 := if filled then alter (drop 1) price m1 else m1 in
  (if level_empty price m2 then delete price m2 else m2)
  = (if decide ((if filled then l else o' :: l) = [])
     then delete price m
     else <[price := if filled then l else o' :: l]> m).
Proof.
  intros Hm. cbn zeta. rewrite level_empty_spec. unfold level.
  apply map_eq. intros p.
  destruct filled.
  - rewrite !lookup_alter_eq, Hm. simpl. rewrite drop_0.
    case_bool_decide as Hl; destruct (decide (l = [])) as [Hl'|Hl']; try done.
    + destruct (decide (p = price)) as [->|Hne].
      * by rewrite !lookup_delete_eq.
      * by rewrite !lookup_delete_ne, !lookup_alter_ne.
    + destruct (decide (p = price)) as [->|Hne].
      * by rewrite !lookup_alter_eq, Hm, lookup_insert_eq.
      * by rewrite !lookup_alter_ne, lookup_insert_ne.
  - rewrite !lookup_alter_eq, Hm. simpl.
    destruct (decide (p = price)) as [->|Hne].
    + by rewrite !lookup_alter_eq, Hm, lookup_insert_eq.
    + by rewrite !lookup_alter_ne, lookup_insert_ne.
Qed.

(** The book one iteration leaves, field by field. *)
Lemma MatchOrders_body_book bidPrice askPrice bid bids ask asks trades ob :
  bids_ ob !! bidPrice = Some (bid :: bids) →
  asks_ ob !! askPrice = Some (ask :: asks) →
  ∃ bid' ask' ob',
    Fill (N.min (GetRemainingQuantity bid) (GetRemainingQuantity ask)) bid = Some bid' ∧
    Fill (N.min (GetRemainingQuantity bid) (GetRemainingQuantity ask)) ask = Some ask' ∧
    MatchOrders_body bidPrice askPrice bid ask trades ob =
      (Returned
         (trades ++
          [mkTrade (mkTradeInfo (GetOrderId bid) (GetPrice bid)
                      (N.min (GetRemainingQuantity bid) (GetRemainingQuantity ask)))
                   (mkTradeInfo (GetOrderId ask) (GetPrice ask)
                      (N.min (GetRemainingQuantity bid) (GetRemainingQuantity ask)))]),
       ob') ∧
    bids_ ob' =
      (if decide ((if IsFilled bid' then bids else bid' :: bids) = [])
       then delete bidPrice (bids_ ob)
       else <[bidPrice := if IsFilled bid' then bids else bid' :: bids]> (bids_ ob)) ∧
    asks_ ob' =
      (if decide ((if IsFilled ask' then asks else ask' :: asks) = [])
       then delete askPrice (asks_ ob)
       else <[askPrice := if IsFilled ask' then asks else ask' :: asks]> (asks_ ob)) ∧
    orders_ ob' =
      (let m := alter (set_entry_order ask') (GetOrderId ask)
                  (alter (set_entry_order bid') (GetOrderId bid) (orders_ ob)) in
       let m := if IsFilled bid' then delete (GetOrderId bid) m else m in
       if IsFilled ask' then delete (GetOrderId ask) m else m).
Proof.
  intros Hb Ha. unfold MatchOrders_body.
  rewrite (Fill_le _ bid) by lia. rewrite (Fill_le _ ask) by lia.
  eexists _, _, _. split; [reflexivity|]. split; [reflexivity|].
  split; [reflexivity|].
  set (bid' := mkOrder _ _ _ _ _ (remainingQuantity_ bid - _)%N).
  set (ask' := mkOrder _ _ _ _ _ (remainingQuantity_ ask - _)%N).
  change (orderId_ bid') with (orderId_ bid).
  change (orderId_ ask') with (orderId_ ask).
  pose proof (ladder_after_front bidPrice bid' bid bids (bids_ ob)) as HB.
  pose proof (ladder_after_front askPrice ask' ask asks (asks_ ob)) as HA.
  destruct (IsFilled bid') eqn:Fb, (IsFilled ask') eqn:Fa;
    [specialize (HB true Hb); specialize (HA true Ha)
    |specialize (HB true Hb); specialize (HA false Ha)
    |specialize (HB false Hb); specialize (HA true Ha)
    |specialize (HB false Hb); specialize (HA false Ha)];
    cbn zeta iota in HB, HA;
    unfold write_ask, write_bid, with_orders, with_bids, with_asks; simpl;
    revert HB HA;
    repeat match goal with
           | |- context [if level_empty ?p ?m then _ else _] =>
               destruct (level_empty p m); simpl
           end;
    intros HB HA; done.
Qed.

(** An invariant of the iterations is an invariant of the loop. *)
Lemma MatchOrders_levels_invariant (P : Trades → Orderbook → Prop)
    (bidPrice askPrice : Price) :
  (∀ trades ob bid bids ask asks trades' ob',
      bids_ ob !! bidPrice = Some (bid :: bids) →
      asks_ ob !! askPrice = Some (ask :: asks) →
      MatchOrders_body bidPrice askPrice bid ask trades ob = (Returned trades', ob') →
      P trades ob → P trades' ob') →
  ∀ fuel trades ob r ob',
    MatchOrders_levels fuel bidPrice askPrice trades ob = Some (r, ob') →
    P trades ob →
    ∃ trades', r = Returned trades' ∧ P trades' ob'.
Proof.
  intros Hstep fuel. induction fuel as [|fuel IH]; intros trades ob r ob'; simpl.
  - destruct (bids_ ob !! bidPrice) as [[|bid bids]|];
      destruct (asks_ ob !! askPrice) as [[|ask asks]|];
      intros [= <- <-] HP; eauto.
  - destruct (bids_ ob !! bidPrice) as [[|bid bids]|] eqn:Hb;
      [intros [= <- <-] HP; eauto | | intros [= <- <-] HP; eauto].
    destruct (asks_ ob !! askPrice) as [[|ask asks]|] eqn:Ha;
      [intros [= <- <-] HP; eauto | | intros [= <- <-] HP; eauto].
    destruct (MatchOrders_body_spec bidPrice askPrice bid bids ask asks trades ob
                Hb Ha)
      as (bid' & ask' & ob1 & _ & _ & Hbody & _).
    rewrite Hbody. intros Hloop HP.
    apply (IH _ _ _ _ Hloop). by eapply Hstep.
Qed.

Lemma lookup_body_index (bid' ask' : Order) (kb ka : OrderId) (fb fa : bool)
    (m : gmap OrderId OrderEntry) (orderId : OrderId) (e' : OrderEntry) :
  (let m1 := alter (set_entry_order ask') ka (alter (set_entry_order bid') kb m) in
   let m2 := if fb then delete kb m1 else m1 in
   if fa then delete ka m2 else m2) !! orderId = Some e' →
  ∃ e, m !! orderId = Some e ∧ location_ e' = location_ e ∧
       (order_ e' = order_ e ∨ (orderId = kb ∧ order_ e' = bid') ∨
        (orderId = ka ∧ order_ e' = ask')).
Proof.
  cbn zeta. intros H.
  assert (H1 : alter (set_entry_order ask') ka
                 (alter (set_entry_order bid') kb m) !! orderId = Some e').
  { destruct fb, fa; simpl in H;
      repeat (apply lookup_delete_Some in H as [_ H]); done. }
  clear H.
  destruct (decide (ka = orderId)) as [->|Hka].
  - rewrite lookup_alter_eq in H1.
    destruct (decide (kb = orderId)) as [->|Hkb].
    + rewrite lookup_alter_eq in H1.
      destruct (m !! orderId) as [e|]; [|done]. simpl in H1.
      injection H1 as <-. exists e. simpl. naive_solver.
    + rewrite lookup_alter_ne in H1 by done.
      destruct (m !! orderId) as [e|]; [|done]. simpl in H1.
      injection H1 as <-. exists e. simpl. naive_solver.
  - rewrite lookup_alter_ne in H1 by done.
    destruct (decide (kb = orderId)) as [->|Hkb].
    + rewrite lookup_alter_eq in H1.
      destruct (m !! orderId) as [e|]; [|done]. simpl in H1.
      injection H1 as <-. exists e. simpl. naive_solver.
    + rewrite lookup_alter_ne in H1 by done. exists e'. naive_solver.
Qed.

(** ** Properties of the book kept by every member function *)

Lemma andThen_book {A B} (P : Orderbook → Prop) (r : outcome A * Orderbook)
    (k : A → Orderbook → outcome B * Orderbook) :
  P r.2 → (∀ a ob, P ob → P (k a ob).2) → P (andThen r k).2.
Proof. destruct r as [[a|e|] ob]; simpl; auto. Qed.

Section Preservation.
Variable P : Orderbook → Prop.
Hypothesis P_CancelOrder : ∀ orderId ob, P ob → P (CancelOrder orderId ob).2.
Hypothesis P_body :
  ∀ bidPrice askPrice bid bids ask asks trades ob trades' ob',
    bids_ ob !! bidPrice = Some (bid :: bids) →
    asks_ ob !! askPrice = Some (ask :: asks) →
    MatchOrders_body bidPrice askPrice bid ask trades ob = (Returned trades', ob') →
    P ob → P ob'.

Lemma kept_by_CheckAndCancelFillAndKillOrders ob :
  P ob → P (CheckAndCancelFillAndKillOrders ob).2.
Proof.
  intros HP. unfold CheckAndCancelFillAndKillOrders.
  assert (Hone : ∀ comp container ob1,
             P ob1 → P (cancelFillAndKillOrder comp container ob1).2).
  { intros comp container ob1 H1. unfold cancelFillAndKillOrder.
    destruct (begin_ comp (container ob1)) as [[p [|o l]]|]; simpl; try done.
    destruct (decide _); [by apply P_CancelOrder|done]. }
  apply andThen_book; [by apply Hone|]. intros _ ob1. apply Hone.
Qed.

Lemma kept_by_MatchOrders_levels fuel bidPrice askPrice trades ob r ob' :
  MatchOrders_levels fuel bidPrice askPrice trades ob = Some (r, ob') →
  P ob → P ob'.
Proof.
  intros Hloop HP.
  assert (Hstep : ∀ trades ob bid bids ask asks trades' ob',
             bids_ ob !! bidPrice = Some (bid :: bids) →
             asks_ ob !! askPrice = Some (ask :: asks) →
             MatchOrders_body bidPrice askPrice bid ask trades ob
               = (Returned trades', ob') →
             P ob → P ob') by eauto.
  destruct (MatchOrders_levels_invariant (λ _ ob1, P ob1) bidPrice askPrice
              Hstep _ _ _ _ _ Hloop HP) as (_ & _ & H).
  done.
Qed.

Lemma kept_by_MatchOrders ob : P ob → P (MatchOrders ob).2.
Proof.
  intros HP. unfold MatchOrders.
  destruct (begin_ greater (bids_ ob)) as [[bidPrice bids]|]; [|done].
  destruct (begin_ less (asks_ ob)) as [[askPrice asks]|]; [|done].
  destruct (bidPrice <? askPrice); [done|].
  destruct (MatchOrders_levels _ _ _ _ _) as [[r ob1]|] eqn:Hloop; [|done].
  apply andThen_book; [by eapply kept_by_MatchOrders_levels|].
  intros trades ob2 H2.
  apply andThen_book; [by apply kept_by_CheckAndCancelFillAndKillOrders|done].
Qed.

Hypothesis P_insert :
  ∀ order ob, orders_ ob !! GetOrderId order = None →
              P ob → P (AddOrder_insert order ob).

Lemma kept_by_AddOrder order ob : P ob → P (AddOrder order ob).2.
Proof.
  intros HP. unfold AddOrder.
  destruct (decide _) as [|Hnew]; [done|].
  destruct (_ && _); [done|].
  apply kept_by_MatchOrders, P_insert; [|done].
  by apply eq_None_not_Some.
Qed.

Lemma kept_by_MatchOrder order ob : P ob → P (MatchOrder order ob).2.
Proof.
  intros HP. unfold MatchOrder.
  destruct (orders_ ob !! om_orderId_ order) as [[existingOrder it]|]; [|done].
  apply andThen_book; [by apply P_CancelOrder|].
  intros _ ob1. apply kept_by_AddOrder.
Qed.
End Preservation.

(** *** The index is filed by order id *)

Lemma index_keyed_CancelOrder orderId ob :
  index_keyed ob → index_keyed (CancelOrder orderId ob).2.
Proof.
  intros Hk id e. rewrite CancelOrder_orders.
  intros [_ He]%lookup_delete_Some. by apply Hk.
Qed.

Lemma index_keyed_body bidPrice askPrice bid bids ask asks trades ob trades' ob' :
  bids_ ob !! bidPrice = Some (bid :: bids) →
  asks_ ob !! askPrice = Some (ask :: asks) →
  MatchOrders_body bidPrice askPrice bid ask trades ob = (Returned trades', ob') →
  index_keyed ob → index_keyed ob'.
Proof.
  intros Hb Ha Hbody Hk.
  destruct (MatchOrders_body_book bidPrice askPrice bid bids ask asks trades ob
              Hb Ha) as (bid' & ask' & ob1 & Fb & Fa & Hbody' & _ & _ & Eo).
  rewrite Hbody in Hbody'. injection Hbody' as _ <-.
  rewrite (Fill_le _ bid) in Fb by lia. rewrite (Fill_le _ ask) in Fa by lia.
  injection Fb as <-. injection Fa as <-.
  intros id e'. rewrite Eo. intros He'.
  apply lookup_body_index in He' as (e & He & Hloc & Hord).
  pose proof (Hk _ _ He) as Hid.
  destruct Hord as [->|[[-> ->]|[-> ->]]]; done.
Qed.

Lemma index_keyed_insert order ob :
  orders_ ob !! GetOrderId order = None →
  index_keyed ob → index_keyed (AddOrder_insert order ob).
Proof.
  intros Hnew Hk id e. rewrite AddOrder_insert_orders by done.
  destruct (decide (id = orderId_ order)) as [->|].
  - rewrite lookup_insert_eq. by intros [= <-].
  - rewrite lookup_insert_ne by done. apply Hk.
Qed.

(** X12: [AddOrder], [CancelOrder] and [MatchOrder] keep the index filed by
    order id: when a lookup by id yields an order of that id in the book
    before the call, it does so in the book the call leaves, whatever its
    outcome.  The only insertion into [orders_] files the order under its
    own id (line 297), and a fill does not change the id of an order. *)
Theorem index_keyed_kept (ob : Orderbook) :
  index_keyed ob →
  (∀ order, index_keyed (AddOrder order ob).2) ∧
  (∀ orderId, index_keyed (CancelOrder orderId ob).2) ∧
  (∀ order, index_keyed (MatchOrder order ob).2).
Proof.
  intros Hk. split; [|split].
  - intros order. apply (kept_by_AddOrder index_keyed); try done.
    + apply index_keyed_CancelOrder.
    + apply index_keyed_body.
    + apply index_keyed_insert.
  - intros orderId. by apply index_keyed_CancelOrder.
  - intros order. apply (kept_by_MatchOrder index_keyed); try done.
    + apply index_keyed_CancelOrder.
    + apply index_keyed_body.
    + apply index_keyed_insert.
Qed.

Lemma index_keyed_check (ob : Orderbook) :
  map_Forall (λ orderId e, GetOrderId (order_ e) = orderId) (orders_ ob) →
  index_keyed ob.
Proof. intros H orderId e He. by apply (H _ _ He). Qed.

Lemma book_two_asks_index_keyed : index_keyed book_two_asks.
Proof.
  apply index_keyed_check.
  apply map_Forall_to_list; vm_compute; repeat constructor.
Defined.

Lemma index_keyed_kept_witness :
  index_keyed book_two_asks ∧
  (∀ order, index_keyed (AddOrder order book_two_asks).2) ∧
  (∀ orderId, index_keyed (CancelOrder orderId book_two_asks).2) ∧
  (∀ order, index_keyed (MatchOrder order book_two_asks).2).
Proof.
  split; [exact book_two_asks_index_keyed|].
  exact (index_keyed_kept book_two_asks book_two_asks_index_keyed).
Defined.

(** ** The fill exception never escapes *)

Lemma andThen_outcome {A B} (Q : ∀ C, outcome C → Prop)
    (r : outcome A * Orderbook) (k : A → Orderbook → outcome B * Orderbook) :
  (∀ e, Q A (Thrown e) → Q B (Thrown e)) → (Q A Undefined → Q B Undefined) →
  Q A r.1 → (∀ a ob, Q B (k a ob).1) → Q B (andThen r k).1.
Proof. destruct r as [[a|e|] ob]; simpl; auto. Qed.

Lemma CancelOrder_not_logic_error orderId ob :
  not_logic_error _ (CancelOrder orderId ob).1.
Proof.
  unfold CancelOrder, not_logic_error.
  destruct (orders_ ob !! orderId) as [[order it]|]; [|done].
  destruct (side_ order); simpl.
  - by destruct (bids_ ob !! price_ order).
  - by destruct (asks_ ob !! price_ order).
Qed.

Lemma CheckAndCancelFillAndKillOrders_not_logic_error ob :
  not_logic_error _ (CheckAndCancelFillAndKillOrders ob).1.
Proof.
  assert (Hone : ∀ comp container ob1,
             not_logic_error _ (cancelFillAndKillOrder comp container ob1).1).
  { intros comp container ob1. unfold cancelFillAndKillOrder.
    destruct (begin_ comp (container ob1)) as [[p [|o l]]|]; simpl; try done.
    destruct (decide _); [apply CancelOrder_not_logic_error|done]. }
  unfold CheckAndCancelFillAndKillOrders.
  apply (andThen_outcome not_logic_error);
    [done|done|apply Hone|intros _ ob1; apply Hone].
Qed.

Lemma MatchOrders_not_logic_error ob : not_logic_error _ (MatchOrders ob).1.
Proof.
  unfold MatchOrders.
  destruct (begin_ greater (bids_ ob)) as [[bidPrice bids]|]; [|done].
  destruct (begin_ less (asks_ ob)) as [[askPrice asks]|]; [|done].
  destruct (bidPrice <? askPrice); [done|].
  destruct (MatchOrders_levels _ _ _ _ _) as [[r ob1]|] eqn:Hloop; [|done].
  destruct (MatchOrders_levels_invariant (λ _ _, True) bidPrice askPrice
              ltac:(done) _ _ _ _ _ Hloop I) as (trades & -> & _).
  simpl.
  apply (andThen_outcome not_logic_error);
    [by intros e H [= ->]; apply H|done| |done].
  apply CheckAndCancelFillAndKillOrders_not_logic_error.
Qed.

Lemma AddOrder_not_logic_error order ob : not_logic_error _ (AddOrder order ob).1.
Proof.
  unfold AddOrder. destruct (decide _); [done|]. destruct (_ && _); [done|].
  apply MatchOrders_not_logic_error.
Qed.

(** X13: the exception of [Order::Fill] never leaves the book: on every
    book, none of [AddOrder], [CancelOrder] and [MatchOrder] throws
    [std::logic_error], because the matching loop only asks an order for a
    quantity it still has. *)
Theorem logic_error_never_thrown (ob : Orderbook) :
  (∀ order, (AddOrder order ob).1 ≠ Thrown logic_error) ∧
  (∀ orderId, (CancelOrder orderId ob).1 ≠ Thrown logic_error) ∧
  (∀ order, (MatchOrder order ob).1 ≠ Thrown logic_error).
Proof.
  split; [|split].
  - intros order. apply AddOrder_not_logic_error.
  - intros orderId. apply CancelOrder_not_logic_error.
  - intros order. unfold MatchOrder.
    destruct (orders_ ob !! om_orderId_ order) as [[existingOrder it]|]; [|done].
    apply (andThen_outcome not_logic_error);
      [by intros e H [= ->]; apply H|done| |].
    + apply CancelOrder_not_logic_error.
    + intros _ ob1. apply AddOrder_not_logic_error.
Qed.

(** ** What a submission does to the index *)

Lemma index_within_CancelOrder (orderId0 : OrderId) (ob0 : Orderbook) orderId ob :
  (∀ id e', orders_ ob !! id = Some e' →
            id = orderId0 ∨ is_Some (orders_ ob0 !! id)) →
  ∀ id e', orders_ (CancelOrder orderId ob).2 !! id = Some e' →
           id = orderId0 ∨ is_Some (orders_ ob0 !! id).
Proof.
  intros H id e'. rewrite CancelOrder_orders.
  intros [_ He]%lookup_delete_Some. by eapply H.
Qed.

Lemma index_within_body (orderId0 : OrderId) (ob0 : Orderbook)
    bidPrice askPrice bid bids ask asks trades ob trades' ob' :
  bids_ ob !! bidPrice = Some (bid :: bids) →
  asks_ ob !! askPrice = Some (ask :: asks) →
  MatchOrders_body bidPrice askPrice bid ask trades ob = (Returned trades', ob') →
  (∀ id e', orders_ ob !! id = Some e' →
            id = orderId0 ∨ is_Some (orders_ ob0 !! id)) →
  ∀ id e', orders_ ob' !! id = Some e' →
           id = orderId0 ∨ is_Some (orders_ ob0 !! id).
Proof.
  intros Hb Ha Hbody H id e'.
  destruct (MatchOrders_body_book bidPrice askPrice bid bids ask asks trades ob
              Hb Ha) as (bid' & ask' & ob1 & _ & _ & Hbody' & _ & _ & Eo).
  rewrite Hbody in Hbody'. injection Hbody' as _ <-.
  rewrite Eo. intros (e & He & _)%lookup_body_index. by eapply H.
Qed.

Lemma size_index_within (orderId0 : OrderId) (m m0 : gmap OrderId OrderEntry) :
  (∀ id e', m !! id = Some e' → id = orderId0 ∨ is_Some (m0 !! id)) →
  (size m ≤ S (size m0))%nat.
Proof.
  intros H. rewrite <- !size_dom.
  assert (Hsub : dom m ⊆ {[orderId0]} ∪ dom m0).
  { intros id [e' He']%elem_of_dom.
    destruct (H _ _ He') as [->|Hin]; [set_solver|].
    apply elem_of_union_r. by apply elem_of_dom. }
  apply subseteq_size in Hsub.
  rewrite size_union_alt, size_singleton in Hsub.
  assert (Hdiff : dom m0 ∖ {[orderId0]} ⊆ dom m0)
    by (by intros x [Hx _]%elem_of_difference).
  apply subseteq_size in Hdiff. lia.
Qed.

(** X15: a submission adds no index entry but that of the submitted order:
    every id indexed after [AddOrder] is the order's id or was indexed
    before, so [Size] grows by one at most; a modify adds no id at all, so
    [Size] does not grow. *)
Theorem index_growth (ob : Orderbook) :
  (∀ order,
      (∀ id e', orders_ (AddOrder order ob).2 !! id = Some e' →
                id = GetOrderId order ∨ is_Some (orders_ ob !! id)) ∧
      (Size (AddOrder order ob).2 ≤ S (Size ob))%nat) ∧
  (∀ order,
      (∀ id e', orders_ (MatchOrder order ob).2 !! id = Some e' →
                is_Some (orders_ ob !! id)) ∧
      (Size (MatchOrder order ob).2 ≤ Size ob)%nat).
Proof.
  assert (HAdd : ∀ order ob1 id e',
             orders_ (AddOrder order ob1).2 !! id = Some e' →
             id = GetOrderId order ∨ is_Some (orders_ ob1 !! id)).
  { intros order ob1. unfold AddOrder.
    destruct (decide _) as [|Hnew]; [simpl; eauto|].
    destruct (_ && _); [simpl; eauto|].
    apply (kept_by_MatchOrders
             (λ ob2, ∀ id e', orders_ ob2 !! id = Some e' →
                              id = GetOrderId order ∨ is_Some (orders_ ob1 !! id))).
    - intros. by eapply index_within_CancelOrder.
    - intros. by eapply index_within_body.
    - intros id e'. rewrite AddOrder_insert_orders by by apply eq_None_not_Some.
      destruct (decide (id = orderId_ order)) as [->|]; [by left|].
      rewrite lookup_insert_ne by done. eauto. }
  split.
  - intros order. split; [apply HAdd|].
    unfold Size. eapply size_index_within, HAdd.
  - intros order.
    assert (Hin : ∀ id e', orders_ (MatchOrder order ob).2 !! id = Some e' →
                           is_Some (orders_ ob !! id)).
    { unfold MatchOrder.
      destruct (orders_ ob !! om_orderId_ order) as [[existingOrder it]|] eqn:He;
        [|simpl; eauto].
      intros id e'.
      destruct (CancelOrder (om_orderId_ order) ob) as [[[]|ex|] ob1] eqn:Hc;
        simpl; pose proof (CancelOrder_orders (om_orderId_ order) ob) as Ho;
        rewrite Hc in Ho; simpl in Ho.
      - intros [Hid|Hin]%HAdd; [rewrite Hid; simpl; by rewrite He|].
        rewrite Ho in Hin. destruct Hin as [e Hin].
        apply lookup_delete_Some in Hin as [_ Hin]. eauto.
      - rewrite Ho. intros [_ Hin]%lookup_delete_Some. eauto.
      - rewrite Ho. intros [_ Hin]%lookup_delete_Some. eauto. }
    split; [exact Hin|].
    unfold Size. rewrite <- !size_dom. apply subseteq_size.
    intros id [e' He']%elem_of_dom. apply elem_of_dom. by eapply Hin.
Qed.

(** ** Books reachable from the empty book *)

Lemma AddOrder_asks_empty_book order ob :
  asks_ ob = ∅ →
  ((AddOrder order ob).1 = Returned [] ∧ (AddOrder order ob).2 = ob) ∨
  ((AddOrder order ob).1 = Undefined ∧
   orders_ ob !! GetOrderId order = None ∧
   (AddOrder order ob).2 = AddOrder_insert order ob).
Proof.
  intros Ha. unfold AddOrder.
  destruct (decide _) as [|Hnew]; [by left|].
  destruct (_ && _); [by left|].
  right. rewrite MatchOrders_break.
  - split; [done|]. split; [|done]. by apply eq_None_not_Some.
  - right; left. by rewrite AddOrder_insert_asks.
Qed.

(** X17: no sequence of calls from the empty book ever yields a trade: on
    every reachable book, [AddOrder] returns the empty trade list or ends
    without a returned value, and [MatchOrder] does the same or throws
    [std::out_of_range]. *)
Theorem reachable_never_trades (ob : Orderbook) :
  reachable ob →
  (∀ order, (AddOrder order ob).1 = Returned [] ∨
            (AddOrder order ob).1 = Undefined) ∧
  (∀ order, (MatchOrder order ob).1 = Returned [] ∨
            (MatchOrder order ob).1 = Undefined ∨
            (MatchOrder order ob).1 = Thrown out_of_range).
Proof.
  intros Ha%reachable_asks_empty. split.
  - intros order.
    destruct (AddOrder_asks_empty_book order ob Ha) as [[? _]|[? _]]; auto.
  - intros order. unfold MatchOrder.
    destruct (orders_ ob !! om_orderId_ order) as [[existingOrder it]|]; [|by left].
    pose proof (CancelOrder_asks_empty (om_orderId_ order) ob Ha) as Ha1.
    pose proof (CancelOrder_not_logic_error (om_orderId_ order) ob) as Hex.
    destruct (CancelOrder (om_orderId_ order) ob) as [[[]|[]|] ob1]; simpl in *.
    + destruct (AddOrder_asks_empty_book
                  (ToOrderPointer order (orderType_ existingOrder)) ob1 Ha1)
        as [[? _]|[? _]]; auto.
    + by destruct Hex.
    + auto.
    + auto.
Qed.

Lemma reachable_never_trades_witness :
  reachable (AddOrder buy1 emptyBook).2 ∧
  (∀ order, (AddOrder order (AddOrder buy1 emptyBook).2).1 = Returned [] ∨
            (AddOrder order (AddOrder buy1 emptyBook).2).1 = Undefined) ∧
  (∀ order, (MatchOrder order (AddOrder buy1 emptyBook).2).1 = Returned [] ∨
            (MatchOrder order (AddOrder buy1 emptyBook).2).1 = Undefined ∨
            (MatchOrder order (AddOrder buy1 emptyBook).2).1 = Thrown out_of_range).
Proof.
  assert (H : reachable (AddOrder buy1 emptyBook).2).
  { apply reachable_AddOrder, reachable_empty. }
  split; [exact H|].
  exact (reachable_never_trades (AddOrder buy1 emptyBook).2 H).
Defined.

(** X21: a FillAndKill buy order never rests in a book reachable from the
    empty book: the ask ladder of such a book is empty, so [CanMatch] answers
    no for every price, and [AddOrder] returns the empty trade list at one
    of its two tests (lines 277-281) and leaves the book, ladders and index,
    as it was. *)
Theorem reachable_FillAndKill_Buy_rejected (order : Order) (ob : Orderbook) :
  reachable ob →
  GetOrderType order = FillAndKill →
  GetSide order = Buy →
  CanMatch (GetSide order) (GetPrice order) ob = false ∧
  AddOrder order ob = (Returned [], ob).
Proof.
  intros Ha%reachable_asks_empty Htype Hside.
  assert (Hno : CanMatch (GetSide order) (GetPrice order) ob = false).
  { apply CanMatch_false. left. split; [exact Hside|]. by left. }
  split; [exact Hno|].
  unfold AddOrder.
  destruct (decide (is_Some (orders_ ob !! orderId_ order))); [done|].
  by rewrite Hno, Htype, bool_decide_eq_true_2.
Qed.

Lemma reachable_FillAndKill_Buy_rejected_witness :
  reachable (AddOrder buy1 emptyBook).2 ∧
  GetOrderType fak_buy = FillAndKill ∧
  GetSide fak_buy = Buy ∧
  CanMatch (GetSide fak_buy) (GetPrice fak_buy) (AddOrder buy1 emptyBook).2
    = false ∧
  AddOrder fak_buy (AddOrder buy1 emptyBook).2
    = (Returned [], (AddOrder buy1 emptyBook).2).
Proof.
  assert (H : reachable (AddOrder buy1 emptyBook).2).
  { apply reachable_AddOrder, reachable_empty. }
  split; [exact H|]. split; [reflexivity|]. split; [reflexivity|].
  exact (reachable_FillAndKill_Buy_rejected fak_buy (AddOrder buy1 emptyBook).2
           H eq_refl eq_refl).
Defined.

(** ** The aggregation of a level *)

(** X19: [CreateLevelInfos] pairs the price it is given with the sum of the
    remaining quantities of the orders of the level, reduced modulo 2^32 by
    the 32-bit accumulator; the sum itself when it is below 2^32. *)
Theorem CreateLevelInfos_quantity (price : Price) (orders : OrderPointers) :
  li_price_ (CreateLevelInfos price orders) = price ∧
  li_quantity_ (CreateLevelInfos price orders)
    = (remaining_of orders mod Quantity_modulus)%N ∧
  ((remaining_of orders < Quantity_modulus)%N →
   li_quantity_ (CreateLevelInfos price orders) = remaining_of orders).
Proof.
  rewrite CreateLevelInfos_sum. simpl. split; [done|]. split; [done|].
  intros H. by apply N.mod_small.
Qed.
